(** * bun-plugin-coffeescript: a shallow embedding of [src/index.ts]

    The plugin registers one [onLoad] filter with the Bun builder and routes
    every path the host presents either to [loadCson] (read + [CSON.parse])
    or to [loadCoffeeScript] (read + [compile]).  The embedding follows the
    source function by function:

    - JavaScript strings are [string]s (one [ascii] per code unit; the
      suffixes and the pattern of the source are ASCII);
    - the filter is a regular-expression syntax tree run by a backtracking
      matcher, as [RegExp.prototype.test] runs it;
    - an object is the list of its own enumerable string-keyed properties
      in enumeration order, objects live in a store and are named by
      references, so that "builds a fresh object" and "mutates in place"
      are different things;
    - an [async] function is a state-and-error computation over the
      [World] (object store, files on disk, log of the calls made to the
      external collaborators); a rejected promise is [Rejected e]. *)

From Stdlib Require Import Ascii String.
From stdpp Require Import base tactics option list strings gmap.

(** ** Strings *)

Module JsString.

(** [String.prototype.endsWith(searchString)] with the default end
    position: [start = len - searchLength]; a negative [start] gives
    [false], otherwise the code units from [start] are compared. *)
Definition endsWith (s searchString : string) : bool :=
  let len := String.length s in
  let searchLength := String.length searchString in
  if decide (len < searchLength) then false
  else bool_decide (substring (len - searchLength) searchLength s = searchString).

(** [strip_prefix t s] removes the code units of [t] from the front of
    [s] when they are there. *)
Fixpoint strip_prefix (t s : string) : option string :=
  match t with
  | EmptyString => Some s
  | String c t' =>
      match s with
      | EmptyString => None
      | String x s' => if Ascii.eqb x c then strip_prefix t' s' else None
      end
  end.

(** The mathematical reading of "ends with": some prefix followed by the
    suffix. *)
Definition ends_with (s suffix : string) : Prop := ∃ pre, s = pre +:+ suffix.

End JsString.

(** ** Regular expressions *)

Module RegExp.

(** The fragment of the pattern language that the source's literal
    [/\.(coffee|cson|litcoffee)$/] uses: (escaped) characters,
    concatenation, disjunction, a capturing group and the end-of-input
    assertion (no [m] flag, so [$] is the end of the whole input). *)
Inductive t : Type :=
| Empty
| Char (c : ascii)
| Seq (r1 r2 : t)
| Alt (r1 r2 : t)
| Group (r : t)
| AssertEnd.

(** A run of pattern characters. *)
Fixpoint literal (s : string) : t :=
  match s with
  | EmptyString => Empty
  | String c s' => Seq (Char c) (literal s')
  end.

(** The backtracking matcher, in continuation-passing style: [matcher r
    s k] tries [r] at the front of the rest [s] of the input and hands
    what is left to the continuation [k].  Nothing in this fragment looks
    to the left of the current position, so the rest of the input is all
    the matcher has to carry. *)
Fixpoint matcher (r : t) (s : string) (k : string → bool) : bool :=
  match r with
  | Empty => k s
  | Char c =>
      match s with
      | EmptyString => false
      | String x s' => if Ascii.eqb x c then k s' else false
      end
  | Seq r1 r2 => matcher r1 s (λ s', matcher r2 s' k)
  | Alt r1 r2 => matcher r1 s k || matcher r2 s k
  | Group r' => matcher r' s k
  | AssertEnd =>
      match s with
      | EmptyString => k EmptyString
      | String _ _ => false
      end
  end.

(** [match_at r s]: the pattern matches starting at the front of [s]. *)
Definition match_at (r : t) (s : string) : bool := matcher r s (λ _, true).

(** [RegExp.prototype.test] for a pattern without the [g] and [y] flags:
    the match is tried at index 0, 1, ... up to and including the length
    of the input. *)
Fixpoint test (r : t) (s : string) : bool :=
  match_at r s ||
  match s with
  | EmptyString => false
  | String _ s' => test r s'
  end.

End RegExp.

(** The pattern of [builder.onLoad({ filter: /\.(coffee|cson|litcoffee)$/ }, ...)]. *)
Definition filter_pattern : RegExp.t :=
  RegExp.Seq (RegExp.Char ".")
    (RegExp.Seq
       (RegExp.Group
          (RegExp.Alt (RegExp.literal "coffee")
             (RegExp.Alt (RegExp.literal "cson") (RegExp.literal "litcoffee"))))
       RegExp.AssertEnd).

(** ** Values and objects *)

Local Set Warnings "-register-all".

(** A JavaScript value as a tree.  Arrays keep the order of their items
    and objects keep the insertion order of their keys.  The adapter never
    looks inside a number, so the numeric literals of the tests are enough. *)
Inductive JsValue : Type :=
| JUndefined
| JNull
| JBoolean (b : bool)
| JNumber (n : Z)
| JString (s : string)
| JArray (items : list JsValue)
| JObject (props : list (string * JsValue)).

Module JsObject.

(** The own enumerable string-keyed properties of a plain object, in
    enumeration order. *)
Definition t : Type := list (string * JsValue).

(** [o[k]] on own properties. *)
Fixpoint get (o : t) (k : string) : option JsValue :=
  match o with
  | [] => None
  | (k', v) :: o' => if decide (k' = k) then Some v else get o' k
  end.

(** [CreateDataProperty(o, k, v)]: an existing key keeps its place and
    takes the new value, a new key goes last. *)
Fixpoint set (o : t) (k : string) (v : JsValue) : t :=
  match o with
  | [] => [(k, v)]
  | (k', v') :: o' => if decide (k' = k) then (k, v) :: o' else (k', v') :: set o' k v
  end.

(** Keys of an object are pairwise different. *)
Definition wf (o : t) : Prop := NoDup o.*1.

(** The properties of [entries] defined one after the other on [target]:
    what [Object.fromEntries] does on [{}] and what a spread element
    [...src] does inside an object literal. *)
Definition define_all (target : t) (entries : list (string * JsValue)) : t :=
  fold_left (λ o kv, set o kv.1 kv.2) entries target.

End JsObject.

(** [Array.prototype.includes] on an array of keys. *)
Definition includes (keys : list string) (key : string) : bool :=
  bool_decide (key ∈ keys).

(** ** The world of an invocation *)

(** A thrown value. *)
Record JsError : Type := { error_name : string; message : string }.

(** The outcome of an [async] function: the promise it returns resolves
    to a value or rejects with the value that was thrown. *)
Inductive Promise (A : Type) : Type :=
| Resolved (a : A)
| Rejected (e : JsError).
Arguments Resolved {A} a.
Arguments Rejected {A} e.

(** The calls the adapter makes to its collaborators, as the host could
    observe them. *)
Inductive Call : Type :=
| ReadText (path : string)
| CsonParse (text : string)
| Compile (text : string) (options : JsObject.t).

(** A reference to an object of the store. *)
Definition loc : Type := nat.

Record World : Type := {
  heap : list JsObject.t;        (* the object store; a reference is an index *)
  files : gmap string string;    (* the readable files: path to text *)
  calls : list Call              (* the collaborator calls made so far, oldest first *)
}.

(** The collaborators, which are not part of the repository:
    the error the runtime raises when it reads a path that does not exist,
    [CSON.parse] of cson-parser and [compile] of coffeescript.  The last
    two are taken as functions of their arguments: they return or throw,
    and they leave the store and the files alone. *)
Record Externals : Type := {
  ENOENT : string → JsError;
  CSON_parse : string → Promise JsValue;
  compile : string → JsObject.t → Promise string
}.

(** Computations that read and extend the world and may throw. *)
Definition Async (A : Type) : Type := World → Promise A * World.

Global Instance async_ret : MRet Async := λ A a w, (Resolved a, w).

(** [await]: a rejected operand rejects the whole function at once. *)
Global Instance async_bind : MBind Async := λ A B f m w,
  match m w with
  | (Resolved a, w') => f a w'
  | (Rejected e, w') => (Rejected e, w')
  end.

(** The object a reference points to.  References held by the program
    always point into the store. *)
Definition deref (h : list JsObject.t) (l : loc) : JsObject.t := default [] (h !! l).

(** A new object is stored behind the next free reference. *)
Definition alloc (o : JsObject.t) : Async loc :=
  λ w, (Resolved (length (heap w)),
        {| heap := heap w ++ [o]; files := files w; calls := calls w |}).

Definition log (c : Call) (w : World) : World :=
  {| heap := heap w; files := files w; calls := calls w ++ [c] |}.

(** [Object.entries(obj)] *)
Definition Object_entries (obj : loc) : Async (list (string * JsValue)) :=
  λ w, (Resolved (deref (heap w) obj), w).

(** [Object.fromEntries(entries)]: a new object. *)
Definition Object_fromEntries (entries : list (string * JsValue)) : Async loc :=
  alloc (JsObject.define_all [] entries).

(** The literal [{ k: v, ...src }]: a new object with the property [k],
    on which the properties of [src] are then defined in order. *)
Definition object_literal_spread (k : string) (v : JsValue) (src : loc) : Async loc :=
  props ← Object_entries src;
  alloc (JsObject.define_all [(k, v)] props).

(** ** The adapter *)

(** What the callback hands back to the host. *)
Inductive OnLoadResult : Type :=
| OnLoadResultSourceCode (contents : string) (loader : string)
| OnLoadResultObject (exports : JsValue) (loader : string).

Section Adapter.

Context (ext : Externals).

(** [await Bun.file(path).text()] *)
Definition Bun_file_text (path : string) : Async string :=
  λ w, (match files w !! path with
        | Some text => Resolved text
        | None => Rejected (ENOENT ext path)
        end,
        log (ReadText path) w).

(** The call [CSON.parse(text)]. *)
Definition call_CSON_parse (text : string) : Async JsValue :=
  λ w, (CSON_parse ext text, log (CsonParse text) w).

(** The call [compile(text, options)]; the compiler reads the options
    object it is handed. *)
Definition call_compile (text : string) (options : loc) : Async string :=
  λ w, let o := deref (heap w) options in
       (compile ext text o, log (Compile text o) w).

(** [function omit(obj, keys)] *)
Definition omit (obj : loc) (keys : list string) : Async loc :=
  entries ← Object_entries obj;
  Object_fromEntries (filter (λ kv, negb (includes keys kv.1)) entries).

(** [async function loadCson(path)] *)
Definition loadCson (path : string) : Async OnLoadResult :=
  fileContents ← Bun_file_text path;
  exports ← call_CSON_parse fileContents;
  mret (OnLoadResultObject exports "object").

(** [async function loadCoffeeScript(path, options)] *)
Definition loadCoffeeScript (path : string) (options : loc) : Async OnLoadResult :=
  fileContents ← Bun_file_text path;
  compilerOptions ← omit options ["inlineMap"];
  arg ← object_literal_spread "filename" (JString path) compilerOptions;
  contents ← call_compile fileContents arg;
  mret (OnLoadResultSourceCode contents "js").

(** The arrow function handed to [builder.onLoad]: [async ({ path }) => ...],
    closed over the [options] of the factory. *)
Definition callback (options : loc) (path : string) : Async OnLoadResult :=
  if JsString.endsWith path ".cson" then loadCson path
  else loadCoffeeScript path options.

(** One [onLoad] registration as the host keeps it. *)
Record OnLoad : Type := {
  onLoad_filter : RegExp.t;
  onLoad_callback : string → Async OnLoadResult
}.

(** The host's builder: the registrations made so far. *)
Definition PluginBuilder : Type := list OnLoad.

(** [builder.onLoad({ filter }, callback)] *)
Definition onLoad (builder : PluginBuilder) (flt : RegExp.t)
    (cb : string → Async OnLoadResult) : PluginBuilder :=
  (builder ++ [{| onLoad_filter := flt; onLoad_callback := cb |}])%list.

Record BunPlugin : Type := {
  name : string;
  setup : PluginBuilder → PluginBuilder
}.

(** [export default function Plugin(options = {})]: a missing argument
    is replaced by a new empty object. *)
Definition Plugin (arg : option loc) : Async BunPlugin :=
  options ← match arg with
            | Some o => mret o
            | None => alloc []
            end;
  mret {| name := "bun-plugin-coffeescript";
          setup := λ builder, onLoad builder filter_pattern (callback options) |}.

(** The world after the host has presented [paths] one after the other
    to a callback (whether a load resolves or rejects, the next one
    starts from the world it left). *)
Definition run_loads (cb : string → Async OnLoadResult) (paths : list string)
    (w : World) : World :=
  fold_left (λ w path, (cb path w).2) paths w.

End Adapter.

(** The object [loadCoffeeScript] builds for the compiler out of the
    properties [o] of the caller's bag, written as one expression
    ([loadCoffeeScript_run] below shows that this is what the code hands
    over). *)
Definition sanitized (o : JsObject.t) : JsObject.t :=
  JsObject.define_all [] (filter (λ kv, negb (includes ["inlineMap"] kv.1)) o).

Definition forwarded (path : string) (o : JsObject.t) : JsObject.t :=
  JsObject.define_all [("filename", JString path)] (sanitized o).

(** The calls a computation adds to the log when it is run in [w]. *)
Definition made_calls {A} (m : Async A) (w : World) : list Call :=
  drop (length (calls w)) (calls (m w).2).

(** ** A small concrete instance, used to run the model

    A compiler that rejects the dangling [if] of the test-suite and
    otherwise echoes the source under a comment with the [filename] it
    was given, a parser that knows one document, and a world with a
    handful of files and two options objects. *)

Definition demo_ext : Externals := {|
  ENOENT := λ path, {| error_name := "ENOENT"; message := path |};
  CSON_parse := λ text,
    if decide (text = "key: 'value', number: 123, boolean: true")
    then Resolved (JObject [("key", JString "value"); ("number", JNumber 123);
                            ("boolean", JBoolean true)])
    else Rejected {| error_name := "SyntaxError"; message := "unexpected end of input" |};
  compile := λ text options,
    if decide (text = "if")
    then Rejected {| error_name := "SyntaxError"; message := "unexpected if" |}
    else Resolved (match JsObject.get options "filename" with
                   | Some (JString f) => "// " +:+ f +:+ ": " +:+ text
                   | _ => text
                   end)
|}.

Definition demo_files : gmap string string :=
  {[ "a.coffee" := "square = (x) -> x * x";
     "bad.coffee" := "if";
     "a.cson" := "key: 'value', number: 123, boolean: true";
     "bad.cson" := "key: 'unterminated";
     "notes.txt" := "add = (a, b) -> a + b" ]}.

(** Object 0 is [{ bare: true, inlineMap: true }], object 1 is
    [{ filename: 'other.coffee' }]. *)
Definition demo_world : World := {|
  heap := [ [("bare", JBoolean true); ("inlineMap", JBoolean true)];
            [("filename", JString "other.coffee")] ];
  files := demo_files;
  calls := []
|}.

(** ** The previous revision of the plugin

    [src/index.ts] also holds the revision before CSON support: the same
    [omit], a pattern without [cson] and a callback that always compiles. *)

Module Previous.

(** The pattern of [builder.onLoad({ filter: /\.(coffee|litcoffee)$/ }, ...)]. *)
Definition filter_pattern : RegExp.t :=
  RegExp.Seq (RegExp.Char ".")
    (RegExp.Seq
       (RegExp.Group (RegExp.Alt (RegExp.literal "coffee") (RegExp.literal "litcoffee")))
       RegExp.AssertEnd).

Section Adapter.

Context (ext : Externals).

(** The arrow function handed to [builder.onLoad]: the body that later
    became [loadCoffeeScript]. *)
Definition callback (options : loc) (path : string) : Async OnLoadResult :=
  fileContents ← Bun_file_text ext path;
  compilerOptions ← omit options ["inlineMap"];
  arg ← object_literal_spread "filename" (JString path) compilerOptions;
  contents ← call_compile ext fileContents arg;
  mret (OnLoadResultSourceCode contents "js").

(** [export default function Plugin(options = {})] *)
Definition Plugin (arg : option loc) : Async BunPlugin :=
  options ← match arg with
            | Some o => mret o
            | None => alloc []
            end;
  mret {| name := "bun-plugin-coffeescript";
          setup := λ builder, onLoad builder filter_pattern (callback options) |}.

End Adapter.

End Previous.

(** ** The helpers of the test-suite *)

(** [function isSourceResult(result)]: ['contents' in result]. *)
Definition isSourceResult (result : OnLoadResult) : bool :=
  match result with
  | OnLoadResultSourceCode _ _ => true
  | OnLoadResultObject _ _ => false
  end.

(** [function isObjectResult(result)]: ['exports' in result]. *)
Definition isObjectResult (result : OnLoadResult) : bool :=
  match result with
  | OnLoadResultSourceCode _ _ => false
  | OnLoadResultObject _ _ => true
  end.

(** [async function expectToReject(promise)]: [didThrow] after the
    [try { await promise } catch { didThrow = true }]; the expectation
    that follows holds when it is [true]. *)
Definition expectToReject {A} (promise : Promise A) : bool :=
  match promise with
  | Resolved _ => false
  | Rejected _ => true
  end.

(** The paths read, in the order of the log. *)
Definition reads (cs : list Call) : list string :=
  omap (λ c, match c with ReadText path => Some path | _ => None end) cs.

(** The last code unit of a string. *)
Fixpoint last_code_unit (s : string) : option ascii :=
  match s with
  | EmptyString => None
  | String c EmptyString => Some c
  | String _ s' => last_code_unit s'
  end.

(** * Properties *)

(** ** Strings *)

Section StringFacts.

Import JsString.

Lemma append_cons (c : ascii) (s t : string) : String c s +:+ t = String c (s +:+ t).
Proof. reflexivity. Qed.

Lemma append_empty_l (s : string) : "" +:+ s = s.
Proof. reflexivity. Qed.

Lemma append_empty_r (s : string) : s +:+ "" = s.
Proof. induction s as [|c s IH]; [done | by rewrite append_cons, IH]. Qed.

Lemma substring_0_length (s : string) : substring 0 (String.length s) s = s.
Proof. induction s as [|c s IH]; simpl; [done | by rewrite IH]. Qed.

Lemma substring_skip_prefix (pre t : string) :
  substring (String.length pre) (String.length t) (pre +:+ t) = t.
Proof. induction pre as [|c pre IH]; simpl; [apply substring_0_length | done]. Qed.

Lemma string_split_at (s : string) (n : nat) :
  n ≤ String.length s →
  s = substring 0 n s +:+ substring n (String.length s - n) s.
Proof.
  revert n. induction s as [|c s IH]; intros [|n] Hn; simpl in *; try done.
  - by rewrite substring_0_length.
  - rewrite append_cons. f_equal. apply IH. lia.
Qed.

Lemma app_length_string (s t : string) :
  String.length (s +:+ t) = String.length s + String.length t.
Proof. induction s as [|c s IH]; simpl; [done | by rewrite IH]. Qed.

(** The library function decides the relation. *)
Lemma endsWith_spec (s t : string) : endsWith s t = true ↔ ends_with s t.
Proof.
  unfold endsWith, ends_with. split.
  - case_decide as Hlt; [done |]. rewrite bool_decide_eq_true. intros Hsub.
    exists (substring 0 (String.length s - String.length t) s).
    rewrite (string_split_at s (String.length s - String.length t)) at 1 by lia.
    f_equal. rewrite <- Hsub at 3. f_equal. lia.
  - intros [pre ->]. rewrite app_length_string.
    case_decide as Hlt; [lia |]. rewrite bool_decide_eq_true.
    replace (String.length pre + String.length t - String.length t)
      with (String.length pre) by lia.
    apply substring_skip_prefix.
Qed.

Lemma strip_prefix_spec (t s r : string) : strip_prefix t s = Some r ↔ s = t +:+ r.
Proof.
  revert s. induction t as [|c t IH]; intros s; simpl.
  - split; intros H; by simplify_eq.
  - destruct s as [|x s]; [split; discriminate |].
    destruct (Ascii.eqb_spec x c) as [-> | Hne].
    + rewrite IH. split; [by intros -> | by intros [= ->]].
    + split; [done | by intros [= ? ?]].
Qed.

End StringFacts.

(** ** The registration filter *)

Section RegExpFacts.

Import RegExp JsString.

Lemma matcher_literal (t s : string) (k : string → bool) :
  matcher (literal t) s k =
  match strip_prefix t s with Some rest => k rest | None => false end.
Proof.
  revert s. induction t as [|c t IH]; intros s; simpl; [done |].
  destruct s as [|x s]; [done |]. destruct (Ascii.eqb x c); [apply IH | done].
Qed.

(** A literal followed by [$] matches exactly the literal itself. *)
Lemma literal_then_end (t s : string) :
  matcher (literal t) s (λ s', matcher AssertEnd s' (λ _, true)) = true ↔ s = t.
Proof.
  rewrite matcher_literal. destruct (strip_prefix t s) as [rest|] eqn:Hs.
  - apply strip_prefix_spec in Hs as ->. destruct rest as [|x rest]; simpl.
    + by rewrite append_empty_r.
    + split; [done |]. intros H. exfalso.
      apply (f_equal String.length) in H. rewrite app_length_string in H.
      simpl in H. lia.
  - split; [done |]. intros ->.
    assert (strip_prefix t t = Some "") as Ht
      by (apply strip_prefix_spec; by rewrite append_empty_r).
    congruence.
Qed.

(** Where the pattern can match: at a position where the rest of the
    input is one of the three extensions and nothing more. *)
Lemma match_at_filter (s : string) :
  match_at filter_pattern s = true ↔
  s = ".coffee" ∨ s = ".cson" ∨ s = ".litcoffee".
Proof.
  unfold match_at, filter_pattern. cbn [matcher].
  destruct s as [|x s].
  { split; [done | by intros [?|[?|?]]]. }
  destruct (Ascii.eqb_spec x ".") as [-> | Hne].
  - rewrite !orb_true_iff, !literal_then_end.
    split; (intros [H|[H|H]]; [left | right; left | right; right]);
      first [by rewrite H | by injection H].
  - split; [done |]. intros [H|[H|H]]; injection H; intros; by subst.
Qed.

(** [test] finds a match at some position of the input. *)
Lemma test_spec (r : RegExp.t) (s : string) :
  test r s = true ↔ ∃ pre suf, s = pre +:+ suf ∧ match_at r suf = true.
Proof.
  induction s as [|c s IH]; simpl; rewrite orb_true_iff.
  - split.
    + intros [H|H]; [by exists "", "" | done].
    + intros (pre & suf & Hs & Hm). left.
      destruct pre; [rewrite append_empty_l in Hs; by subst | done].
  - rewrite IH. split.
    + intros [H|(pre & suf & -> & Hm)].
      * by exists "", (String c s).
      * by exists (String c pre), suf.
    + intros (pre & suf & Hs & Hm). destruct pre as [|c' pre].
      * left. rewrite append_empty_l in Hs. by subst.
      * right. rewrite append_cons in Hs. injection Hs as -> ->. by exists pre, suf.
Qed.

Lemma test_filter_iff (path : string) :
  test filter_pattern path = true ↔
  ends_with path ".coffee" ∨ ends_with path ".litcoffee" ∨ ends_with path ".cson".
Proof.
  rewrite test_spec. unfold ends_with. split.
  - intros (pre & suf & -> & Hm). apply match_at_filter in Hm as [-> | [-> | ->]]; eauto.
  - intros [[pre ->] | [[pre ->] | [pre ->]]]; eexists pre, _;
      (split; [done |]); apply match_at_filter; auto.
Qed.

(** The same with the library function of the routing test: the pattern
    and three calls of [endsWith] compute the same truth value. *)
Lemma test_filter_endsWith (path : string) :
  test filter_pattern path =
  endsWith path ".coffee" || endsWith path ".litcoffee" || endsWith path ".cson".
Proof.
  apply eq_true_iff_eq. rewrite !orb_true_iff, !endsWith_spec, test_filter_iff. tauto.
Qed.

(** Every path that the callback routes to the CSON loader is one the
    pattern lets through. *)
Lemma cson_paths_are_matched (path : string) :
  endsWith path ".cson" = true → test filter_pattern path = true.
Proof. intros H. rewrite test_filter_endsWith, H. by rewrite !orb_true_r. Qed.

(** C2. The registered pattern matches a path exactly when the path ends
    with [.coffee], [.litcoffee] or [.cson]; a path that only contains
    one of them, such as [app.coffee.bak] or [app.coffees], is not
    matched. *)
Theorem filter_matches_exactly_the_three_suffixes :
  (∀ path : string,
     test filter_pattern path = true ↔
     ends_with path ".coffee" ∨ ends_with path ".litcoffee" ∨ ends_with path ".cson")
  ∧ test filter_pattern "app.coffee.bak" = false
  ∧ test filter_pattern "app.coffees" = false.
Proof. split; [apply test_filter_iff | by split]. Qed.

End RegExpFacts.

(** ** Objects *)

Section ObjectFacts.

Import JsObject.
Implicit Types (o target : JsObject.t) (k : string) (v : JsValue).

Lemma get_None o k : get o k = None ↔ k ∉ o.*1.
Proof.
  induction o as [|[k' v'] o IH]; simpl.
  - split; [intros _; apply not_elem_of_nil | done].
  - rewrite not_elem_of_cons. case_decide as Hk.
    + split; [done | intros [Hne _]; by subst].
    + rewrite IH. split; [intros Hn; split; [congruence | done] | by intros [_ Hn]].
Qed.

Lemma get_set_eq o k v : get (set o k v) k = Some v.
Proof.
  induction o as [|[k' v'] o IH]; simpl.
  - by rewrite decide_True.
  - case_decide as Hk; simpl.
    + by rewrite decide_True.
    + by rewrite decide_False.
Qed.

Lemma get_set_ne o k k' v : k ≠ k' → get (set o k v) k' = get o k'.
Proof.
  intros Hne. induction o as [|[k0 v0] o IH]; simpl.
  - by rewrite decide_False.
  - destruct (decide (k0 = k)) as [-> | Hk]; simpl.
    + by rewrite !decide_False.
    + by rewrite IH.
Qed.

(** A new key goes last. *)
Lemma set_fresh o k v : k ∉ o.*1 → set o k v = o ++ [(k, v)].
Proof.
  induction o as [|[k' v'] o IH]; simpl; [done |].
  rewrite not_elem_of_cons. intros [Hne Hk].
  rewrite decide_False by done. by rewrite IH.
Qed.

Lemma define_all_cons target k v entries :
  define_all target ((k, v) :: entries) = define_all (set target k v) entries.
Proof. reflexivity. Qed.

(** Defining properties under keys that are all new and pairwise
    different appends them in order. *)
Lemma define_all_fresh target entries :
  NoDup (target ++ entries).*1 → define_all target entries = target ++ entries.
Proof.
  revert target.
  induction entries as [|[k v] entries IH]; intros target Hnd.
  - by rewrite app_nil_r.
  - rewrite define_all_cons, set_fresh.
    + rewrite IH; rewrite <- app_assoc; done.
    + rewrite fmap_app in Hnd. apply NoDup_app in Hnd as (_ & Hdisj & _).
      intros Hk. apply (Hdisj k Hk). simpl. apply elem_of_cons. by left.
Qed.

(** Keys that are not defined keep what the target had. *)
Lemma get_define_all_other target entries k :
  k ∉ entries.*1 → get (define_all target entries) k = get target k.
Proof.
  revert target.
  induction entries as [|[k' v'] entries IH]; intros target Hk; [done |].
  simpl in Hk. apply not_elem_of_cons in Hk as [Hne Hk].
  rewrite define_all_cons, IH by done. by apply get_set_ne.
Qed.

(** A defined key takes the value of its entry. *)
Lemma get_define_all_entry target entries k v :
  NoDup entries.*1 → get entries k = Some v →
  get (define_all target entries) k = Some v.
Proof.
  revert target.
  induction entries as [|[k' v'] entries IH]; intros target Hnd Hget; [done |].
  simpl in Hnd, Hget. apply NoDup_cons in Hnd as [Hk' Hnd].
  rewrite define_all_cons. case_decide as Hk.
  - injection Hget as ->. subst k'.
    rewrite (get_define_all_other _ entries k Hk'). apply get_set_eq.
  - by apply IH.
Qed.

(** What the callback of [filter] in [omit] keeps. *)
Lemma get_filter_keys (keys : list string) (o : list (string * JsValue)) k :
  get (filter (λ kv, negb (includes keys kv.1)) o) k =
  if includes keys k then None else get o k.
Proof.
  induction o as [|[k' v'] o IH].
  - by destruct (includes keys k).
  - destruct (includes keys k') eqn:Hin'.
    + rewrite filter_cons_False by (simpl; rewrite Hin'; auto).
      rewrite IH. simpl. destruct (decide (k' = k)) as [<- | Hk]; [by rewrite Hin' | done].
    + rewrite filter_cons_True by (simpl; by rewrite Hin').
      simpl. destruct (decide (k' = k)) as [<- | Hk]; [by rewrite Hin' | apply IH].
Qed.

Lemma wf_filter (keys : list string) (o : list (string * JsValue)) :
  wf o → wf (filter (λ kv, negb (includes keys kv.1)) o).
Proof.
  unfold wf. intros Hnd. eapply sublist_NoDup; [exact Hnd |].
  apply fmap_sublist, sublist_filter.
Qed.

End ObjectFacts.

(** ** Running the loaders *)

Section AdapterFacts.

Context (ext : Externals).
Implicit Types (w : World) (path text : string) (options : loc).

Lemma deref_alloc (h : list JsObject.t) (o : JsObject.t) : deref (h ++ [o]) (length h) = o.
Proof. unfold deref. by rewrite list_lookup_middle. Qed.

Lemma deref_old (h new : list JsObject.t) (l : loc) :
  l < length h → deref (h ++ new) l = deref h l.
Proof. intros Hl. unfold deref. by rewrite lookup_app_l. Qed.

(** [omit] in one step: the world gains one object, the filtered copy. *)
Lemma omit_run options (keys : list string) w :
  omit options keys w =
  (Resolved (length (heap w)),
   {| heap := heap w ++ [JsObject.define_all []
                 (filter (λ kv, negb (includes keys kv.1)) (deref (heap w) options))];
      files := files w; calls := calls w |}).
Proof. reflexivity. Qed.

(** [loadCson] in one step. *)
Lemma loadCson_run path w :
  loadCson ext path w =
  match files w !! path with
  | None => (Rejected (ENOENT ext path), log (ReadText path) w)
  | Some text =>
      (match CSON_parse ext text with
       | Resolved exports => Resolved (OnLoadResultObject exports "object")
       | Rejected e => Rejected e
       end,
       {| heap := heap w; files := files w;
          calls := calls w ++ [ReadText path; CsonParse text] |})
  end.
Proof.
  unfold loadCson, mbind, async_bind, mret, async_ret, Bun_file_text, call_CSON_parse, log.
  simpl. destruct (files w !! path) as [text|]; [| done].
  rewrite <- app_assoc. simpl. by destruct (CSON_parse ext text).
Qed.

(** [loadCoffeeScript] in one step: two objects are created (the
    sanitized copy and the literal handed to the compiler), the caller's
    object is only read. *)
Lemma loadCoffeeScript_run path options w :
  loadCoffeeScript ext path options w =
  match files w !! path with
  | None => (Rejected (ENOENT ext path), log (ReadText path) w)
  | Some text =>
      let o := deref (heap w) options in
      (match compile ext text (forwarded path o) with
       | Resolved contents => Resolved (OnLoadResultSourceCode contents "js")
       | Rejected e => Rejected e
       end,
       {| heap := heap w ++ [sanitized o; forwarded path o]; files := files w;
          calls := calls w ++ [ReadText path; Compile text (forwarded path o)] |})
  end.
Proof.
  unfold loadCoffeeScript, object_literal_spread, omit, Object_fromEntries,
    Object_entries, alloc, call_compile, Bun_file_text, log,
    mbind, async_bind, mret, async_ret.
  simpl. destruct (files w !! path) as [text|]; [| done]. simpl.
  rewrite !deref_alloc, <- !app_assoc. simpl.
  fold (sanitized (deref (heap w) options)).
  fold (forwarded path (deref (heap w) options)).
  by destruct (compile ext text _).
Qed.

Lemma made_calls_loadCson path w :
  made_calls (loadCson ext path) w =
  match files w !! path with
  | None => [ReadText path]
  | Some text => [ReadText path; CsonParse text]
  end.
Proof.
  unfold made_calls. rewrite loadCson_run.
  destruct (files w !! path); simpl; apply drop_app_length.
Qed.

Lemma made_calls_loadCoffeeScript path options w :
  made_calls (loadCoffeeScript ext path options) w =
  match files w !! path with
  | None => [ReadText path]
  | Some text => [ReadText path; Compile text (forwarded path (deref (heap w) options))]
  end.
Proof.
  unfold made_calls. rewrite loadCoffeeScript_run.
  destruct (files w !! path); simpl; apply drop_app_length.
Qed.

(** Whatever a load does, the files stay as they were and the objects
    that existed stay as they were: the store only grows. *)
Lemma callback_files options path w : files (callback ext options path w).2 = files w.
Proof.
  unfold callback. destruct (JsString.endsWith path ".cson").
  - rewrite loadCson_run. by destruct (files w !! path).
  - rewrite loadCoffeeScript_run. by destruct (files w !! path).
Qed.

Lemma callback_heap_grows options path w :
  heap w `prefix_of` heap (callback ext options path w).2.
Proof.
  unfold callback. destruct (JsString.endsWith path ".cson").
  - rewrite loadCson_run. by destruct (files w !! path).
  - rewrite loadCoffeeScript_run.
    destruct (files w !! path); simpl; [by apply prefix_app_r | done].
Qed.

(** The outcome of a load reads the world only through the file at the
    path and the properties of the options object. *)
Lemma callback_outcome_depends_on options path w1 w2 :
  files w1 !! path = files w2 !! path →
  deref (heap w1) options = deref (heap w2) options →
  (callback ext options path w1).1 = (callback ext options path w2).1.
Proof.
  intros Hfiles Hopts. unfold callback. destruct (JsString.endsWith path ".cson").
  - rewrite !loadCson_run, Hfiles. by destruct (files w2 !! path).
  - rewrite !loadCoffeeScript_run, Hfiles, Hopts. by destruct (files w2 !! path).
Qed.

Lemma deref_prefix (h h' : list JsObject.t) (l : loc) :
  h `prefix_of` h' → l < length h → deref h' l = deref h l.
Proof. intros [new ->] Hl. by apply deref_old. Qed.

Lemma run_loads_heap_grows options (paths : list string) w :
  heap w `prefix_of` heap (run_loads (callback ext options) paths w).
Proof.
  revert w. induction paths as [|path paths IH]; intros w; simpl; [done |].
  etrans; [apply (callback_heap_grows options path) | apply IH].
Qed.

End AdapterFacts.

(** ** The options handed to the compiler *)

Section ForwardedFacts.

Import JsObject.
Implicit Types (o : JsObject.t) (k path : string) (v : JsValue).

Lemma includes_inlineMap k : includes ["inlineMap"] k = bool_decide (k = "inlineMap").
Proof. unfold includes. apply bool_decide_ext, list_elem_of_singleton. Qed.

(** On a well-formed bag the copy is the bag without the key, in the
    same order. *)
Lemma sanitized_wf o :
  wf o → sanitized o = filter (λ kv, negb (includes ["inlineMap"] kv.1)) o.
Proof. intros Hwf. unfold sanitized. rewrite define_all_fresh; [done |]. by apply wf_filter. Qed.

Lemma get_sanitized_inlineMap o : get (sanitized o) "inlineMap" = None.
Proof.
  unfold sanitized. rewrite get_define_all_other; [done |].
  apply get_None. by rewrite get_filter_keys.
Qed.

Lemma get_sanitized_other o k : wf o → k ≠ "inlineMap" → get (sanitized o) k = get o k.
Proof.
  intros Hwf Hk. rewrite sanitized_wf, get_filter_keys, includes_inlineMap by done.
  by rewrite bool_decide_eq_false_2.
Qed.

Lemma get_sanitized_None o k : get o k = None → get (sanitized o) k = None.
Proof.
  intros Hk. unfold sanitized. rewrite get_define_all_other; [done |].
  apply get_None. rewrite get_filter_keys. by destruct (includes _ k).
Qed.

Lemma get_forwarded_inlineMap path o : get (forwarded path o) "inlineMap" = None.
Proof.
  unfold forwarded. rewrite get_define_all_other; [done |].
  apply get_None, get_sanitized_inlineMap.
Qed.

(** The path is the default ... *)
Lemma get_forwarded_filename_default path o :
  get o "filename" = None → get (forwarded path o) "filename" = Some (JString path).
Proof.
  intros Hk. unfold forwarded. rewrite get_define_all_other; [done |].
  by apply get_None, get_sanitized_None.
Qed.

(** ... and a [filename] of the bag, spread after it, replaces it. *)
Lemma get_forwarded_filename_supplied path o v :
  wf o → get o "filename" = Some v → get (forwarded path o) "filename" = Some v.
Proof.
  intros Hwf Hk. unfold forwarded. apply get_define_all_entry.
  - rewrite sanitized_wf by done. by apply wf_filter.
  - by rewrite get_sanitized_other.
Qed.

End ForwardedFacts.

(** ** The script loader and the sanitizer *)

Section ScriptLoader.

Context (ext : Externals).
Implicit Types (w : World) (path text : string) (options : loc).

(** C1 (as the code has it). For every path and every configuration
    bag, when the file can be read the script loader calls the compiler
    once, with the text of the file and an options object whose
    [filename] is the input path if the bag has no [filename] key, and
    the bag's own [filename] value if it has one: the bag is spread
    after [filename: path] in the literal, so its key wins. *)
Theorem compiler_filename_defaults_to_path options path w text :
  JsObject.wf (deref (heap w) options) →
  files w !! path = Some text →
  ∃ arg,
    made_calls (loadCoffeeScript ext path options) w = [ReadText path; Compile text arg]
    ∧ JsObject.get arg "filename" =
      Some (default (JString path) (JsObject.get (deref (heap w) options) "filename")).
Proof.
  intros Hwf Hfile. exists (forwarded path (deref (heap w) options)).
  rewrite made_calls_loadCoffeeScript, Hfile. split; [done |].
  destruct (JsObject.get (deref (heap w) options) "filename") as [v|] eqn:Hk; simpl.
  - by apply get_forwarded_filename_supplied.
  - by apply get_forwarded_filename_default.
Qed.

(** C4. The sanitizer always returns, and what it returns is a new
    object: the store gains that one object and nothing else in the
    world changes.  The copy has no [inlineMap], every other key has the
    value it had (the copy is the bag without that key, in the same
    order), and no options object that reaches the compiler has an
    [inlineMap]. *)
Theorem omit_drops_inlineMap_only options w :
  JsObject.wf (deref (heap w) options) →
  ∃ copy,
    omit options ["inlineMap"] w =
      (Resolved (length (heap w)),
       {| heap := heap w ++ [copy]; files := files w; calls := calls w |})
    ∧ copy = filter (λ kv, negb (includes ["inlineMap"] kv.1)) (deref (heap w) options)
    ∧ JsObject.get copy "inlineMap" = None
    ∧ (∀ k, k ≠ "inlineMap" →
            JsObject.get copy k = JsObject.get (deref (heap w) options) k)
    ∧ (∀ path text arg,
          Compile text arg ∈ made_calls (loadCoffeeScript ext path options) w →
          JsObject.get arg "inlineMap" = None).
Proof.
  intros Hwf. exists (sanitized (deref (heap w) options)).
  split; [apply omit_run |]. split; [by apply sanitized_wf |].
  split; [apply get_sanitized_inlineMap |].
  split; [intros k Hk; by apply get_sanitized_other |].
  intros path text arg. rewrite made_calls_loadCoffeeScript.
  destruct (files w !! path) as [text'|].
  - rewrite !elem_of_cons, elem_of_nil. intros [H | [H | []]]; [done |].
    injection H as -> ->. apply get_forwarded_inlineMap.
  - rewrite list_elem_of_singleton. done.
Qed.

End ScriptLoader.

(** ** The registered callback *)

Section Callback.

Context (ext : Externals).
Implicit Types (w : World) (path text : string) (options : loc).

(** C3. A path that ends with [.cson] goes to the CSON loader and, when
    the file is read and parsed, comes back as [{ exports, loader:
    "object" }]; every other path goes to the script loader and, when
    the file is read and compiled, comes back as [{ contents, loader:
    "js" }]; whatever the callback resolves to has one of these two
    shapes, chosen by the suffix. *)
Theorem callback_result_shapes options path w :
  (∀ r, (callback ext options path w).1 = Resolved r →
        if JsString.endsWith path ".cson"
        then ∃ exports, r = OnLoadResultObject exports "object"
        else ∃ contents, r = OnLoadResultSourceCode contents "js")
  ∧ (∀ text exports,
       JsString.endsWith path ".cson" = true →
       files w !! path = Some text →
       CSON_parse ext text = Resolved exports →
       (callback ext options path w).1 = Resolved (OnLoadResultObject exports "object"))
  ∧ (∀ text arg contents,
       JsString.endsWith path ".cson" = false →
       files w !! path = Some text →
       Compile text arg ∈ made_calls (callback ext options path) w →
       compile ext text arg = Resolved contents →
       (callback ext options path w).1 = Resolved (OnLoadResultSourceCode contents "js")).
Proof.
  unfold callback. split; [| split].
  - intros r. destruct (JsString.endsWith path ".cson").
    + rewrite loadCson_run. destruct (files w !! path) as [text|]; [| done].
      simpl. destruct (CSON_parse ext text); [| done]. intros [= <-]. eauto.
    + rewrite loadCoffeeScript_run. destruct (files w !! path) as [text|]; [| done].
      simpl. destruct (compile ext text _); [| done]. intros [= <-]. eauto.
  - intros text exports -> Hfile Hparse.
    by rewrite loadCson_run, Hfile; simpl; rewrite Hparse.
  - intros text arg contents -> Hfile.
    rewrite made_calls_loadCoffeeScript, loadCoffeeScript_run, Hfile. simpl.
    rewrite !elem_of_cons, elem_of_nil. intros [H | [H | []]]; [done |].
    injection H as <-. by intros ->.
Qed.

(** C5. The first failure is the outcome.  When the file is missing the
    promise rejects with the error of the read and nothing else is
    called; when a parse or a compile that the callback made fails, the
    promise rejects with that very error, and the read and that one call
    are all that was called. *)
Theorem first_error_rejects_unmodified options path w :
  (files w !! path = None →
     (callback ext options path w).1 = Rejected (ENOENT ext path)
     ∧ made_calls (callback ext options path) w = [ReadText path])
  ∧ (∀ text e,
       CsonParse text ∈ made_calls (callback ext options path) w →
       CSON_parse ext text = Rejected e →
       (callback ext options path w).1 = Rejected e
       ∧ made_calls (callback ext options path) w = [ReadText path; CsonParse text])
  ∧ (∀ text arg e,
       Compile text arg ∈ made_calls (callback ext options path) w →
       compile ext text arg = Rejected e →
       (callback ext options path w).1 = Rejected e
       ∧ made_calls (callback ext options path) w = [ReadText path; Compile text arg]).
Proof.
  unfold callback. destruct (JsString.endsWith path ".cson");
    rewrite ?made_calls_loadCson, ?made_calls_loadCoffeeScript,
      ?loadCson_run, ?loadCoffeeScript_run;
    (split; [by intros -> | split]);
    destruct (files w !! path) as [text'|]; simpl;
    intros *; rewrite ?elem_of_cons, elem_of_nil;
    intros H; try (by destruct H as [H | [H | []]] || by destruct H as [H | []]).
  - destruct H as [H | [H | []]]; [done |]. injection H as <-. by intros ->.
  - destruct H as [H | [H | []]]; [done |]. injection H as <- <-. by intros ->.
Qed.

(** C6. For a path that ends with [.cson] whose file is read and
    parsed, [exports] is the very tree the parser returned, under the
    loader tag [object]. *)
Theorem cson_exports_are_the_parsed_value options path w text exports :
  JsString.endsWith path ".cson" = true →
  files w !! path = Some text →
  CSON_parse ext text = Resolved exports →
  (callback ext options path w).1 = Resolved (OnLoadResultObject exports "object")
  ∧ (loadCson ext path w).1 = Resolved (OnLoadResultObject exports "object").
Proof.
  intros Hcson Hfile Hparse. unfold callback. rewrite Hcson, loadCson_run, Hfile.
  simpl. by rewrite Hparse.
Qed.

(** C7. What a load resolves or rejects with is determined by the
    path, the text of the file and the properties of the configuration
    bag: two worlds that agree on these give the same outcome, however
    many loads were made before and whatever else is in the store.  In
    particular a second load right after a first one repeats its
    outcome. *)
Theorem loading_is_deterministic options path :
  (∀ w1 w2,
     files w1 !! path = files w2 !! path →
     deref (heap w1) options = deref (heap w2) options →
     (callback ext options path w1).1 = (callback ext options path w2).1)
  ∧ (∀ w,
       options < length (heap w) →
       (callback ext options path (callback ext options path w).2).1
       = (callback ext options path w).1).
Proof.
  split.
  - apply callback_outcome_depends_on.
  - intros w Hvalid. apply callback_outcome_depends_on.
    + by rewrite callback_files.
    + apply deref_prefix; [apply callback_heap_grows | done].
Qed.

(** C9. The object the caller passed to the factory is only read.
    After any sequence of loads it has the properties it had; the
    sanitizer's result is another object, behind a new reference. *)
Theorem options_object_is_never_mutated options (paths : list string) w :
  options < length (heap w) →
  deref (heap (run_loads (callback ext options) paths w)) options = deref (heap w) options
  ∧ ∃ copy, (omit options ["inlineMap"] w).1 = Resolved copy
            ∧ copy ≠ options
            ∧ deref (heap (omit options ["inlineMap"] w).2) options = deref (heap w) options.
Proof.
  intros Hvalid. split.
  - apply deref_prefix; [apply run_loads_heap_grows | done].
  - exists (length (heap w)). rewrite omit_run. simpl.
    split; [done |]. split; [lia |]. by apply deref_old.
Qed.

(** C10. The callback routes on the [.cson] suffix alone and does not
    test the registration pattern again: every path that does not end
    with [.cson] is handled by the script loader, and when its file can
    be read the text goes to the compiler. *)
Theorem non_cson_paths_are_compiled options path w text :
  JsString.endsWith path ".cson" = false →
  files w !! path = Some text →
  callback ext options path w = loadCoffeeScript ext path options w
  ∧ ∃ arg, made_calls (callback ext options path) w = [ReadText path; Compile text arg].
Proof.
  intros Hcson Hfile. unfold callback. rewrite Hcson. split; [done |].
  rewrite made_calls_loadCoffeeScript, Hfile. eauto.
Qed.

(** C8. Whatever the argument, and also without one, the factory
    returns a plugin named [bun-plugin-coffeescript] whose [setup] adds
    exactly one registration to the builder: the pattern together with
    the callback closed over the options, which are a new empty object
    when the argument was left out. *)
Theorem Plugin_registers_one_handler (arg : option loc) w :
  ∃ plugin options,
    (Plugin ext arg w).1 = Resolved plugin
    ∧ name plugin = "bun-plugin-coffeescript"
    ∧ (∀ builder,
          setup plugin builder =
          builder ++ [{| onLoad_filter := filter_pattern;
                         onLoad_callback := callback ext options |}])
    ∧ match arg with
      | Some o => options = o ∧ (Plugin ext arg w).2 = w
      | None => deref (heap (Plugin ext arg w).2) options = []
                ∧ options = length (heap w)
      end.
Proof.
  destruct arg as [o|]; simpl.
  - exists {| name := "bun-plugin-coffeescript";
              setup := λ builder, onLoad builder filter_pattern (callback ext o) |}, o.
    by repeat split.
  - exists {| name := "bun-plugin-coffeescript";
              setup := λ builder, onLoad builder filter_pattern
                                    (callback ext (length (heap w))) |},
           (length (heap w)).
    repeat split. apply deref_alloc.
Qed.

End Callback.

(** ** The properties on the concrete instance *)

Ltac run := vm_compute; reflexivity.

Ltac decide_by_run := apply (bool_decide_unpack _); vm_compute; exact I.
Ltac in_log := vm_compute; repeat constructor.

(** A [filename] key of the bag reaches the compiler in place of the
    path: with the bag [{ filename: 'other.coffee' }] the compiler is
    called for [a.coffee] with [filename] set to [other.coffee]. *)
Lemma filename_key_of_the_bag_overrides_the_path :
  ∃ text arg,
    Compile text arg ∈ made_calls (loadCoffeeScript demo_ext "a.coffee" 1) demo_world
    ∧ JsObject.get arg "filename" = Some (JString "other.coffee")
    ∧ JsObject.get arg "filename" ≠ Some (JString "a.coffee")
    ∧ (loadCoffeeScript demo_ext "a.coffee" 1 demo_world).1 =
      Resolved (OnLoadResultSourceCode "// other.coffee: square = (x) -> x * x" "js").
Proof.
  exists "square = (x) -> x * x", [("filename", JString "other.coffee")].
  split; [in_log |]. split; [run |]. split; [discriminate | run].
Qed.

Lemma compiler_filename_defaults_to_path_witness :
  (∃ arg,
     made_calls (loadCoffeeScript demo_ext "a.coffee" 0) demo_world =
       [ReadText "a.coffee"; Compile "square = (x) -> x * x" arg]
     ∧ JsObject.get arg "filename" = Some (JString "a.coffee"))
  ∧ (∃ arg,
       made_calls (loadCoffeeScript demo_ext "a.coffee" 1) demo_world =
         [ReadText "a.coffee"; Compile "square = (x) -> x * x" arg]
       ∧ JsObject.get arg "filename" = Some (JString "other.coffee")).
Proof.
  split.
  - apply (compiler_filename_defaults_to_path demo_ext 0 "a.coffee" demo_world
             "square = (x) -> x * x"); [decide_by_run | run].
  - apply (compiler_filename_defaults_to_path demo_ext 1 "a.coffee" demo_world
             "square = (x) -> x * x"); [decide_by_run | run].
Defined.

Lemma omit_drops_inlineMap_only_witness :
  ∃ copy,
    omit 0 ["inlineMap"] demo_world =
      (Resolved 2,
       {| heap := heap demo_world ++ [copy]; files := demo_files; calls := [] |})
    ∧ copy = [("bare", JBoolean true)]
    ∧ JsObject.get copy "inlineMap" = None
    ∧ (∀ k, k ≠ "inlineMap" →
            JsObject.get copy k =
            JsObject.get [("bare", JBoolean true); ("inlineMap", JBoolean true)] k)
    ∧ (∀ path text arg,
          Compile text arg ∈ made_calls (loadCoffeeScript demo_ext path 0) demo_world →
          JsObject.get arg "inlineMap" = None).
Proof.
  apply (omit_drops_inlineMap_only demo_ext 0 demo_world). decide_by_run.
Defined.

Lemma callback_result_shapes_witness :
  (callback demo_ext 0 "a.cson" demo_world).1 =
    Resolved (OnLoadResultObject
                (JObject [("key", JString "value"); ("number", JNumber 123);
                          ("boolean", JBoolean true)]) "object")
  ∧ (callback demo_ext 0 "a.coffee" demo_world).1 =
    Resolved (OnLoadResultSourceCode "// a.coffee: square = (x) -> x * x" "js")
  ∧ (∃ contents,
       OnLoadResultSourceCode "// a.coffee: square = (x) -> x * x" "js"
       = OnLoadResultSourceCode contents "js").
Proof.
  destruct (callback_result_shapes demo_ext 0 "a.cson" demo_world) as (_ & Hcson & _).
  destruct (callback_result_shapes demo_ext 0 "a.coffee" demo_world) as (Hany & _ & Hjs).
  split; [| split].
  - apply (Hcson "key: 'value', number: 123, boolean: true"); run.
  - apply (Hjs "square = (x) -> x * x"
             [("filename", JString "a.coffee"); ("bare", JBoolean true)]);
      [run | run | in_log | run].
  - apply (Hany (OnLoadResultSourceCode "// a.coffee: square = (x) -> x * x" "js")). run.
Defined.

Lemma first_error_rejects_unmodified_witness :
  ((callback demo_ext 0 "missing.coffee" demo_world).1 =
     Rejected {| error_name := "ENOENT"; message := "missing.coffee" |}
   ∧ made_calls (callback demo_ext 0 "missing.coffee") demo_world =
     [ReadText "missing.coffee"])
  ∧ ((callback demo_ext 0 "bad.cson" demo_world).1 =
       Rejected {| error_name := "SyntaxError"; message := "unexpected end of input" |}
     ∧ made_calls (callback demo_ext 0 "bad.cson") demo_world =
       [ReadText "bad.cson"; CsonParse "key: 'unterminated"])
  ∧ ((callback demo_ext 0 "bad.coffee" demo_world).1 =
       Rejected {| error_name := "SyntaxError"; message := "unexpected if" |}
     ∧ made_calls (callback demo_ext 0 "bad.coffee") demo_world =
       [ReadText "bad.coffee";
        Compile "if" [("filename", JString "bad.coffee"); ("bare", JBoolean true)]]).
Proof.
  destruct (first_error_rejects_unmodified demo_ext 0 "missing.coffee" demo_world)
    as (Hread & _ & _).
  destruct (first_error_rejects_unmodified demo_ext 0 "bad.cson" demo_world)
    as (_ & Hparse & _).
  destruct (first_error_rejects_unmodified demo_ext 0 "bad.coffee" demo_world)
    as (_ & _ & Hcompile).
  split; [| split].
  - apply Hread. run.
  - apply (Hparse "key: 'unterminated"); [in_log | run].
  - apply (Hcompile "if" [("filename", JString "bad.coffee"); ("bare", JBoolean true)]);
      [in_log | run].
Defined.

Lemma cson_exports_are_the_parsed_value_witness :
  (callback demo_ext 0 "a.cson" demo_world).1 =
    Resolved (OnLoadResultObject
                (JObject [("key", JString "value"); ("number", JNumber 123);
                          ("boolean", JBoolean true)]) "object")
  ∧ (loadCson demo_ext "a.cson" demo_world).1 =
    Resolved (OnLoadResultObject
                (JObject [("key", JString "value"); ("number", JNumber 123);
                          ("boolean", JBoolean true)]) "object").
Proof.
  apply (cson_exports_are_the_parsed_value demo_ext 0 "a.cson" demo_world
           "key: 'value', number: 123, boolean: true"); run.
Defined.

Lemma loading_is_deterministic_witness :
  (callback demo_ext 0 "a.coffee" demo_world).1 =
    (callback demo_ext 0 "a.coffee"
       (run_loads (callback demo_ext 0) ["a.cson"; "bad.coffee"] demo_world)).1
  ∧ (callback demo_ext 0 "a.coffee" (callback demo_ext 0 "a.coffee" demo_world).2).1 =
    (callback demo_ext 0 "a.coffee" demo_world).1.
Proof.
  destruct (loading_is_deterministic demo_ext 0 "a.coffee") as (Hany & Hagain).
  split.
  - apply Hany; run.
  - apply Hagain. vm_compute. lia.
Defined.

Lemma options_object_is_never_mutated_witness :
  deref (heap (run_loads (callback demo_ext 0)
                 ["a.coffee"; "a.cson"; "missing.coffee"; "a.coffee"] demo_world)) 0
  = deref (heap demo_world) 0
  ∧ ∃ copy, (omit 0 ["inlineMap"] demo_world).1 = Resolved copy
            ∧ copy ≠ 0
            ∧ deref (heap (omit 0 ["inlineMap"] demo_world).2) 0
              = deref (heap demo_world) 0.
Proof.
  apply (options_object_is_never_mutated demo_ext 0
           ["a.coffee"; "a.cson"; "missing.coffee"; "a.coffee"] demo_world).
  vm_compute. lia.
Defined.

(** [notes.txt] is not matched by the pattern, and is compiled all the
    same when the host presents it. *)
Lemma non_cson_paths_are_compiled_witness :
  RegExp.test filter_pattern "notes.txt" = false
  ∧ callback demo_ext 0 "notes.txt" demo_world
    = loadCoffeeScript demo_ext "notes.txt" 0 demo_world
  ∧ ∃ arg, made_calls (callback demo_ext 0 "notes.txt") demo_world =
           [ReadText "notes.txt"; Compile "add = (a, b) -> a + b" arg].
Proof.
  split; [run |].
  apply (non_cson_paths_are_compiled demo_ext 0 "notes.txt" demo_world); run.
Defined.

(** * More of the code *)

(** ** [omit] with any list of keys *)

Section OmitFacts.

Import JsObject.
Implicit Types (w : World) (options : loc) (keys : list string).

Lemma includes_nil (k : string) : includes [] k = false.
Proof. unfold includes. apply bool_decide_eq_false_2, not_elem_of_nil. Qed.

Lemma includes_app keys1 keys2 (k : string) :
  includes (keys1 ++ keys2) k = includes keys1 k || includes keys2 k.
Proof.
  unfold includes. apply eq_true_iff_eq.
  rewrite orb_true_iff, !bool_decide_eq_true, elem_of_app. done.
Qed.

(** The keys that pass the callback of [filter], in their order. *)
Lemma filter_keys_fst keys (o : list (string * JsValue)) :
  (filter (λ kv, negb (includes keys kv.1)) o).*1 = filter (λ k, k ∉ keys) o.*1.
Proof.
  induction o as [|[k v] o IH]; [done |].
  rewrite fmap_cons. simpl.
  destruct (decide (k ∈ keys)) as [Hin | Hin].
  - assert (includes keys k = true) as Hk by (by apply bool_decide_eq_true_2).
    rewrite filter_cons_False by (simpl; rewrite Hk; simpl; auto).
    rewrite filter_cons_False by (by intros ?). done.
  - assert (includes keys k = false) as Hk by (by apply bool_decide_eq_false_2).
    rewrite filter_cons_True by (simpl; by rewrite Hk).
    rewrite filter_cons_True by done. rewrite fmap_cons. simpl. by rewrite IH.
Qed.

Lemma filter_no_keys (o : list (string * JsValue)) :
  filter (λ kv, negb (includes [] kv.1)) o = o.
Proof.
  induction o as [|[k v] o IH]; [done |].
  rewrite filter_cons_True; [by rewrite IH |].
  change (Is_true (negb (includes [] k))). by rewrite includes_nil.
Qed.

(** On a well-formed object, what [omit] stores is the filtered list itself. *)
Lemma omit_stores_the_filtered_list keys (o : list (string * JsValue)) :
  wf o →
  define_all [] (filter (λ kv, negb (includes keys kv.1)) o)
  = filter (λ kv, negb (includes keys kv.1)) o.
Proof. intros Hwf. rewrite define_all_fresh; [done |]. by apply wf_filter. Qed.

Lemma deref_alloc_next (h : list JsObject.t) (a b : JsObject.t) :
  deref ((h ++ [a]) ++ [b]) (S (length h)) = b.
Proof.
  replace (S (length h)) with (length (h ++ [a])) by (rewrite length_app; simpl; lia).
  apply deref_alloc.
Qed.

(** The object behind the reference that [omit] returns. *)
Lemma omit_result options keys w :
  (omit options keys w).1 = Resolved (length (heap w))
  ∧ deref (heap (omit options keys w).2) (length (heap w))
    = define_all [] (filter (λ kv, negb (includes keys kv.1)) (deref (heap w) options)).
Proof. rewrite omit_run. simpl. split; [done | apply deref_alloc]. Qed.

(** X1. For any list of keys, the object that [omit] returns has no
    listed key, has every other key with the value of the original, has
    its keys in the original's order, and has pairwise different keys. *)
Theorem omit_lookup_and_order options keys w :
  wf (deref (heap w) options) →
  ∃ copy,
    (omit options keys w).1 = Resolved copy
    ∧ (∀ k, get (deref (heap (omit options keys w).2) copy) k
            = if includes keys k then None else get (deref (heap w) options) k)
    ∧ (deref (heap (omit options keys w).2) copy).*1
      = filter (λ k, k ∉ keys) (deref (heap w) options).*1
    ∧ wf (deref (heap (omit options keys w).2) copy).
Proof.
  intros Hwf. destruct (omit_result options keys w) as [Hres Hobj].
  exists (length (heap w)). rewrite Hobj, omit_stores_the_filtered_list by done.
  split; [done |]. split; [intros k; apply get_filter_keys |].
  split; [apply filter_keys_fst | by apply wf_filter].
Qed.

(** X2. With no key to omit, [omit] is a copy: another reference, behind
    it an object with the same properties in the same order, and the
    original is still what it was. *)
Theorem omit_nothing_is_a_copy options w :
  wf (deref (heap w) options) →
  options < length (heap w) →
  ∃ copy,
    (omit options [] w).1 = Resolved copy
    ∧ copy ≠ options
    ∧ deref (heap (omit options [] w).2) copy = deref (heap w) options
    ∧ deref (heap (omit options [] w).2) options = deref (heap w) options.
Proof.
  intros Hwf Hvalid. destruct (omit_result options [] w) as [Hres Hobj].
  exists (length (heap w)). rewrite Hobj, omit_stores_the_filtered_list by done.
  split; [done |]. split; [lia |]. split; [apply filter_no_keys |].
  rewrite omit_run. simpl. by apply deref_old.
Qed.

(** X3. Omitting one list of keys and then another from the result gives
    an object with the same properties, in the same order, as omitting
    both lists at once; omitting the same keys twice changes nothing
    more. *)
Theorem omit_twice options keys1 keys2 w :
  wf (deref (heap w) options) →
  ∃ twice once,
    ((copy ← omit options keys1; omit copy keys2) w).1 = Resolved twice
    ∧ (omit options (keys1 ++ keys2) w).1 = Resolved once
    ∧ deref (heap ((copy ← omit options keys1; omit copy keys2) w).2) twice
      = deref (heap (omit options (keys1 ++ keys2) w).2) once.
Proof.
  intros Hwf. exists (S (length (heap w))), (length (heap w)).
  unfold mbind, async_bind. rewrite (omit_run options keys1 w).
  rewrite (omit_run _ keys2), (omit_run options (keys1 ++ keys2) w). simpl.
  split; [rewrite length_app; simpl; f_equal; lia |]. split; [done |].
  rewrite deref_alloc_next, !deref_alloc.
  rewrite (omit_stores_the_filtered_list keys1) by done.
  apply (f_equal (define_all [])). unfold JsObject.t.
  rewrite list_filter_filter. apply list_filter_iff. intros [k v]. simpl.
  rewrite includes_app. destruct (includes keys1 k), (includes keys2 k); simpl; tauto.
Qed.

End OmitFacts.

(** ** What reaches the compiler *)

Section CompilerOptions.

Import JsObject.
Context (ext : Externals).
Implicit Types (w : World) (options : loc) (path text : string).

(** Removing [inlineMap] from the bag beforehand does not change what
    the sanitizer stores. *)
Lemma sanitized_without_inlineMap (o : list (string * JsValue)) :
  sanitized (filter (λ kv, kv.1 ≠ "inlineMap") o) = sanitized o.
Proof.
  unfold sanitized. apply (f_equal (define_all [])). unfold JsObject.t.
  rewrite list_filter_filter. apply list_filter_iff. intros [k v]. simpl.
  rewrite includes_inlineMap. case_bool_decide; simpl; tauto.
Qed.

Lemma get_forwarded_other path (o : JsObject.t) (k : string) :
  wf o → k ≠ "filename" →
  get (forwarded path o) k = if decide (k = "inlineMap") then None else get o k.
Proof.
  intros Hwf Hk. unfold forwarded.
  assert (get (sanitized o) k = if decide (k = "inlineMap") then None else get o k) as Hs.
  { case_decide as Hi; [subst; apply get_sanitized_inlineMap | by apply get_sanitized_other]. }
  rewrite <- Hs. destruct (get (sanitized o) k) as [v|] eqn:Hget.
  - apply get_define_all_entry; [| done].
    rewrite sanitized_wf by done. by apply wf_filter.
  - rewrite get_define_all_other by (by apply get_None).
    simpl. by rewrite decide_False by congruence.
Qed.

(** X4. Every option of the bag other than [inlineMap] and [filename]
    reaches the compiler with its value, and the compiler sees no key
    that the bag did not have, apart from [filename]. *)
Theorem other_options_reach_the_compiler options path w text :
  wf (deref (heap w) options) →
  files w !! path = Some text →
  ∃ arg,
    made_calls (loadCoffeeScript ext path options) w = [ReadText path; Compile text arg]
    ∧ ∀ k, k ≠ "filename" →
           get arg k = if decide (k = "inlineMap") then None
                       else get (deref (heap w) options) k.
Proof.
  intros Hwf Hfile. exists (forwarded path (deref (heap w) options)).
  rewrite made_calls_loadCoffeeScript, Hfile. split; [done |].
  intros k Hk. by apply get_forwarded_other.
Qed.

(** X5. A bag and the same bag without its [inlineMap] load every path
    alike: same outcome, same calls with the same arguments. *)
Theorem inlineMap_makes_no_difference options options' path w :
  deref (heap w) options' = filter (λ kv, kv.1 ≠ "inlineMap") (deref (heap w) options) →
  (callback ext options path w).1 = (callback ext options' path w).1
  ∧ made_calls (callback ext options path) w = made_calls (callback ext options' path) w.
Proof.
  intros Hbag.
  assert (forwarded path (deref (heap w) options') = forwarded path (deref (heap w) options))
    as Hfwd by (unfold forwarded; by rewrite Hbag, sanitized_without_inlineMap).
  unfold callback. destruct (JsString.endsWith path ".cson"); [done |].
  rewrite !made_calls_loadCoffeeScript, !loadCoffeeScript_run.
  destruct (files w !! path); simpl; by rewrite ?Hfwd.
Qed.

(** X6. A plugin made without an argument, set up on a builder without
    registrations, leaves one handler; presented with a readable path that
    does not end with [.cson], that handler calls the compiler with the
    text and with [{ filename: path }] and nothing else, and the load
    resolves to the compiler's output under the [js] tag or rejects with
    the compiler's error. *)
Theorem default_plugin_passes_only_the_filename path w text :
  JsString.endsWith path ".cson" = false →
  files w !! path = Some text →
  ∃ plugin handler,
    (Plugin ext None w).1 = Resolved plugin
    ∧ setup plugin [] = [handler]
    ∧ made_calls (onLoad_callback handler path) (Plugin ext None w).2
      = [ReadText path; Compile text [("filename", JString path)]]
    ∧ (onLoad_callback handler path (Plugin ext None w).2).1
      = match compile ext text [("filename", JString path)] with
        | Resolved contents => Resolved (OnLoadResultSourceCode contents "js")
        | Rejected e => Rejected e
        end.
Proof.
  intros Hcson Hfile. eexists _, _. split; [reflexivity |]. split; [reflexivity |].
  simpl. unfold callback. rewrite Hcson.
  rewrite made_calls_loadCoffeeScript, loadCoffeeScript_run. simpl.
  rewrite Hfile, deref_alloc. simpl. done.
Qed.

End CompilerOptions.

(** ** Routing *)

Section Routing.

Import JsString.
Context (ext : Externals).
Implicit Types (w : World) (options : loc) (path text : string).

Lemma last_code_unit_append (pre t : string) :
  t ≠ "" → last_code_unit (pre +:+ t) = last_code_unit t.
Proof.
  intros Ht. induction pre as [|c pre IH]; [done |].
  rewrite append_cons. simpl. rewrite IH.
  destruct (pre +:+ t) as [|c' s'] eqn:Hs; [| done].
  destruct pre; [by rewrite append_empty_l in Hs | by rewrite append_cons in Hs].
Qed.

(** A path cannot end with [.cson] and with one of the script suffixes. *)
Lemma cson_excludes_scripts path :
  ends_with path ".cson" → ¬ (ends_with path ".coffee" ∨ ends_with path ".litcoffee").
Proof.
  intros [pre ->] [[pre' H] | [pre' H]];
    apply (f_equal last_code_unit) in H;
    rewrite !last_code_unit_append in H by done; discriminate.
Qed.

(** X7. The routing table on the paths the pattern lets through: such a
    path either ends with [.cson], with no script suffix, and the callback
    is the CSON loader, or it ends with [.coffee] or [.litcoffee], not with
    [.cson], and the callback is the script loader. *)
Theorem matched_paths_are_routed_by_suffix options path :
  RegExp.test filter_pattern path = true →
  (ends_with path ".cson"
   ∧ ¬ (ends_with path ".coffee" ∨ ends_with path ".litcoffee")
   ∧ callback ext options path = loadCson ext path)
  ∨ ((ends_with path ".coffee" ∨ ends_with path ".litcoffee")
     ∧ ¬ ends_with path ".cson"
     ∧ callback ext options path = loadCoffeeScript ext path options).
Proof.
  intros Hm. apply test_filter_iff in Hm. unfold callback.
  destruct (endsWith path ".cson") eqn:Hc.
  - left. apply endsWith_spec in Hc. split; [done |]. split; [| done].
    by apply cson_excludes_scripts.
  - right. assert (¬ ends_with path ".cson") as Hn
      by (rewrite <- endsWith_spec, Hc; discriminate).
    split; [tauto | done].
Qed.

End Routing.

(** ** What a load does to the world *)

Section Effects.

Context (ext : Externals).
Implicit Types (w : World) (options : loc) (path text : string).

Lemma calls_callback options path w :
  calls (callback ext options path w).2 = calls w ++ made_calls (callback ext options path) w.
Proof.
  unfold made_calls, callback. destruct (JsString.endsWith path ".cson").
  - rewrite loadCson_run. destruct (files w !! path); simpl; by rewrite drop_app_length.
  - rewrite loadCoffeeScript_run. destruct (files w !! path); simpl; by rewrite drop_app_length.
Qed.

Lemma made_calls_callback options path w :
  made_calls (callback ext options path) w =
  ReadText path ::
  match files w !! path with
  | None => []
  | Some text =>
      if JsString.endsWith path ".cson" then [CsonParse text]
      else [Compile text (forwarded path (deref (heap w) options))]
  end.
Proof.
  unfold callback. destruct (JsString.endsWith path ".cson").
  - rewrite made_calls_loadCson. by destruct (files w !! path).
  - rewrite made_calls_loadCoffeeScript. by destruct (files w !! path).
Qed.

(** X8. A path that ends with [.cson] never reaches the compiler: no
    compile call is made, the store is left as it was and the options play
    no part in the outcome.  A path that does not end with [.cson] never
    reaches the CSON parser. *)
Theorem each_path_meets_one_collaborator options path w :
  (JsString.endsWith path ".cson" = true →
     (∀ text arg, Compile text arg ∉ made_calls (callback ext options path) w)
     ∧ heap (callback ext options path w).2 = heap w
     ∧ ∀ options', callback ext options' path w = callback ext options path w)
  ∧ (JsString.endsWith path ".cson" = false →
     ∀ text, CsonParse text ∉ made_calls (callback ext options path) w).
Proof.
  split; intros Hc.
  - split; [| split].
    + intros text arg. rewrite made_calls_callback, Hc.
      destruct (files w !! path); rewrite !elem_of_cons, elem_of_nil; intros H;
        repeat (destruct H as [H | H]; try done).
    + unfold callback. rewrite Hc, loadCson_run. by destruct (files w !! path).
    + intros options'. unfold callback. by rewrite Hc.
  - intros text. rewrite made_calls_callback, Hc.
    destruct (files w !! path); rewrite !elem_of_cons, elem_of_nil; intros H;
      repeat (destruct H as [H | H]; try done).
Qed.

(** X9. The sanitizer runs only after the read: a load that cannot read
    its file leaves the store as it was.  A script load that reads its
    file adds exactly two objects, the sanitized copy and the object for
    the compiler, whether the compiler then returns or throws. *)
Theorem store_growth_of_a_load options path w :
  (files w !! path = None → heap (callback ext options path w).2 = heap w)
  ∧ (∀ text,
       JsString.endsWith path ".cson" = false →
       files w !! path = Some text →
       heap (callback ext options path w).2
       = heap w ++ [sanitized (deref (heap w) options);
                    forwarded path (deref (heap w) options)]).
Proof.
  unfold callback. split.
  - intros Hfile. destruct (JsString.endsWith path ".cson");
      by rewrite ?loadCson_run, ?loadCoffeeScript_run, Hfile.
  - intros text -> Hfile. by rewrite loadCoffeeScript_run, Hfile.
Qed.

Lemma reads_made_calls options path w :
  reads (made_calls (callback ext options path) w) = [path].
Proof.
  rewrite made_calls_callback.
  by destruct (files w !! path), (JsString.endsWith path ".cson").
Qed.

(** X10. Nothing is cached and nothing is written: after the host has
    presented a sequence of paths, the reads in the log are the earlier
    ones followed by one read per presented path, in order and with
    repetitions, and the files are what they were. *)
Theorem every_load_reads_its_file options (paths : list string) w :
  reads (calls (run_loads (callback ext options) paths w)) = reads (calls w) ++ paths
  ∧ files (run_loads (callback ext options) paths w) = files w.
Proof.
  revert w. induction paths as [|path paths IH]; intros w; simpl.
  - by rewrite app_nil_r.
  - destruct (IH (callback ext options path w).2) as [Hreads Hfiles].
    rewrite Hreads, Hfiles, callback_files, calls_callback.
    unfold reads at 1. rewrite omap_app. fold (reads (calls w)).
    fold (reads (made_calls (callback ext options path) w)).
    by rewrite reads_made_calls, <- app_assoc.
Qed.

(** X11. When a load rejects: exactly when the file is missing, or it is
    there and the collaborator of its kind throws on its text (the parser
    for [.cson], otherwise the compiler on the forwarded options).  This
    is when [expectToReject] of the test-suite is satisfied. *)
Theorem load_rejects_exactly_when options path w :
  expectToReject (callback ext options path w).1 = true ↔
  match files w !! path with
  | None => True
  | Some text =>
      if JsString.endsWith path ".cson"
      then ∃ e, CSON_parse ext text = Rejected e
      else ∃ e, compile ext text (forwarded path (deref (heap w) options)) = Rejected e
  end.
Proof.
  unfold callback. destruct (JsString.endsWith path ".cson").
  - rewrite loadCson_run. destruct (files w !! path) as [text|]; simpl; [| done].
    destruct (CSON_parse ext text); simpl; split; eauto; try done. by intros [? ?].
  - rewrite loadCoffeeScript_run. destruct (files w !! path) as [text|]; simpl; [| done].
    destruct (compile ext text _); simpl; split; eauto; try done. by intros [? ?].
Qed.

(** X12. The type guards of the test-suite follow the suffix: whatever a
    load resolves to is an object result exactly when the path ends with
    [.cson] and a source result exactly when it does not. *)
Theorem result_guards_follow_the_suffix options path w result :
  (callback ext options path w).1 = Resolved result →
  isObjectResult result = JsString.endsWith path ".cson"
  ∧ isSourceResult result = negb (JsString.endsWith path ".cson").
Proof.
  unfold callback. destruct (JsString.endsWith path ".cson").
  - rewrite loadCson_run. destruct (files w !! path) as [text|]; simpl; [| done].
    destruct (CSON_parse ext text); [| done]. by intros [= <-].
  - rewrite loadCoffeeScript_run. destruct (files w !! path) as [text|]; simpl; [| done].
    destruct (compile ext text _); [| done]. by intros [= <-].
Qed.

End Effects.

(** ** The previous revision *)

Section PreviousFacts.

Import RegExp JsString.
Context (ext : Externals).
Implicit Types (w : World) (options : loc) (path : string).

Lemma match_at_previous_filter (s : string) :
  match_at Previous.filter_pattern s = true ↔ s = ".coffee" ∨ s = ".litcoffee".
Proof.
  unfold match_at, Previous.filter_pattern. cbn [matcher].
  destruct s as [|x s].
  { split; [done | by intros [? | ?]]. }
  destruct (Ascii.eqb_spec x ".") as [-> | Hne].
  - rewrite !orb_true_iff, !literal_then_end.
    split; (intros [H | H]; [left | right]); first [by rewrite H | by injection H].
  - split; [done |]. intros [H | H]; injection H; intros; by subst.
Qed.

Lemma test_previous_filter_iff path :
  test Previous.filter_pattern path = true ↔
  ends_with path ".coffee" ∨ ends_with path ".litcoffee".
Proof.
  rewrite test_spec. unfold ends_with. split.
  - intros (pre & suf & -> & Hm). apply match_at_previous_filter in Hm as [-> | ->]; eauto.
  - intros [[pre ->] | [pre ->]]; eexists pre, _;
      (split; [done |]); apply match_at_previous_filter; auto.
Qed.

(** X13. The previous pattern lets through exactly the paths that end
    with [.coffee] or [.litcoffee]; the current pattern lets through
    those and the paths that end with [.cson], and nothing else. *)
Theorem current_filter_adds_cson_to_the_previous :
  (∀ path, test Previous.filter_pattern path = true ↔
           ends_with path ".coffee" ∨ ends_with path ".litcoffee")
  ∧ (∀ path, test filter_pattern path = true ↔
             test Previous.filter_pattern path = true ∨ ends_with path ".cson").
Proof.
  split; [apply test_previous_filter_iff |].
  intros path. rewrite test_filter_iff, test_previous_filter_iff. tauto.
Qed.

(** X14. Adding CSON changed nothing for scripts: a path that the
    previous pattern let through is let through by the current one, and
    the current callback does on it what the previous callback did, with
    the same outcome and the same world afterwards. *)
Theorem scripts_load_as_in_the_previous_revision options path :
  test Previous.filter_pattern path = true →
  test filter_pattern path = true
  ∧ ∀ w, callback ext options path w = Previous.callback ext options path w.
Proof.
  intros Hprev. split.
  - apply test_filter_iff. apply test_previous_filter_iff in Hprev. tauto.
  - intros w. unfold callback.
    assert (endsWith path ".cson" = false) as ->; [| done].
    apply test_previous_filter_iff in Hprev.
    destruct (endsWith path ".cson") eqn:Hc; [| done].
    apply endsWith_spec in Hc. by destruct (cson_excludes_scripts path Hc).
Qed.

End PreviousFacts.

(** ** Well-formed objects *)

Section WellFormed.

Import JsObject.
Context (ext : Externals).
Implicit Types (o : JsObject.t) (w : World) (options : loc).

Lemma set_keys o (k : string) (v : JsValue) :
  (set o k v).*1 = if decide (k ∈ o.*1) then o.*1 else o.*1 ++ [k].
Proof.
  induction o as [|[k' v'] o IH].
  - destruct (decide (k ∈ ([] : JsObject.t).*1)) as [Hin | Hin]; [| done].
    by apply elem_of_nil in Hin.
  - rewrite fmap_cons. cbn [set fst].
    destruct (decide (k' = k)) as [-> | Hne].
    + destruct (decide (k ∈ k :: o.*1)) as [Hin | Hin]; [done |].
      destruct Hin. apply elem_of_cons. by left.
    + rewrite fmap_cons, IH. cbn [fst].
      destruct (decide (k ∈ o.*1)) as [Hin | Hin];
        destruct (decide (k ∈ k' :: o.*1)) as [Hin' | Hin']; try done.
      * destruct Hin'. apply elem_of_cons. by right.
      * apply elem_of_cons in Hin' as [-> | ?]; done.
Qed.

Lemma set_wf o (k : string) (v : JsValue) : wf o → wf (set o k v).
Proof.
  unfold wf. intros Hwf. rewrite set_keys. case_decide as Hin; [done |].
  apply NoDup_app. split; [done |]. split; [| apply NoDup_singleton].
  intros x Hx. rewrite list_elem_of_singleton. by intros ->.
Qed.

Lemma define_all_wf o (entries : list (string * JsValue)) : wf o → wf (define_all o entries).
Proof.
  revert o. induction entries as [|[k v] entries IH]; intros o Hwf; [done |].
  rewrite define_all_cons. by apply IH, set_wf.
Qed.

Lemma sanitized_is_wf o : wf (sanitized o).
Proof. apply define_all_wf. apply NoDup_nil_2. Qed.

Lemma forwarded_is_wf (path : string) o : wf (forwarded path o).
Proof. apply define_all_wf. apply NoDup_singleton. Qed.

Lemma callback_keeps_wf options (path : string) w :
  Forall wf (heap w) → Forall wf (heap (callback ext options path w).2).
Proof.
  intros Hwf. unfold callback. destruct (JsString.endsWith path ".cson").
  - rewrite loadCson_run. by destruct (files w !! path).
  - rewrite loadCoffeeScript_run. destruct (files w !! path); [| done]. simpl.
    apply Forall_app. split; [done |].
    repeat apply Forall_cons_2; [apply sanitized_is_wf | apply forwarded_is_wf | done].
Qed.

(** X15. Objects with pairwise different keys are an invariant of the
    store: the objects the adapter creates have them, whatever the bag
    holds, so a store that starts with such objects has only such objects
    after any sequence of loads. *)
Theorem loads_keep_the_store_well_formed options (paths : list string) w :
  Forall wf (heap w) →
  Forall wf (heap (run_loads (callback ext options) paths w)).
Proof.
  revert w. induction paths as [|path paths IH]; intros w Hwf; simpl; [done |].
  by apply IH, callback_keeps_wf.
Qed.

End WellFormed.

(** ** The further properties on the concrete instance *)

Lemma omit_lookup_and_order_witness :
  ∃ copy,
    (omit 0 ["inlineMap"; "header"] demo_world).1 = Resolved copy
    ∧ (∀ k, JsObject.get
              (deref (heap (omit 0 ["inlineMap"; "header"] demo_world).2) copy) k
            = if includes ["inlineMap"; "header"] k then None
              else JsObject.get (deref (heap demo_world) 0) k)
    ∧ (deref (heap (omit 0 ["inlineMap"; "header"] demo_world).2) copy).*1
      = filter (λ k, k ∉ ["inlineMap"; "header"]) (deref (heap demo_world) 0).*1
    ∧ JsObject.wf (deref (heap (omit 0 ["inlineMap"; "header"] demo_world).2) copy).
Proof.
  apply (omit_lookup_and_order 0 ["inlineMap"; "header"] demo_world). decide_by_run.
Defined.

Lemma omit_nothing_is_a_copy_witness :
  ∃ copy,
    (omit 0 [] demo_world).1 = Resolved copy
    ∧ copy ≠ 0
    ∧ deref (heap (omit 0 [] demo_world).2) copy
      = [("bare", JBoolean true); ("inlineMap", JBoolean true)]
    ∧ deref (heap (omit 0 [] demo_world).2) 0
      = [("bare", JBoolean true); ("inlineMap", JBoolean true)].
Proof.
  apply (omit_nothing_is_a_copy 0 demo_world); [decide_by_run | vm_compute; lia].
Defined.

Lemma omit_twice_witness :
  ∃ twice once,
    ((copy ← omit 0 ["inlineMap"]; omit copy ["bare"]) demo_world).1 = Resolved twice
    ∧ (omit 0 (["inlineMap"] ++ ["bare"]) demo_world).1 = Resolved once
    ∧ deref (heap ((copy ← omit 0 ["inlineMap"]; omit copy ["bare"]) demo_world).2) twice
      = deref (heap (omit 0 (["inlineMap"] ++ ["bare"]) demo_world).2) once.
Proof.
  apply (omit_twice 0 ["inlineMap"] ["bare"] demo_world). decide_by_run.
Defined.

Lemma other_options_reach_the_compiler_witness :
  ∃ arg,
    made_calls (loadCoffeeScript demo_ext "a.coffee" 0) demo_world
    = [ReadText "a.coffee"; Compile "square = (x) -> x * x" arg]
    ∧ ∀ k, k ≠ "filename" →
           JsObject.get arg k = if decide (k = "inlineMap") then None
                                else JsObject.get (deref (heap demo_world) 0) k.
Proof.
  apply (other_options_reach_the_compiler demo_ext 0 "a.coffee" demo_world);
    [decide_by_run | run].
Defined.

(** In the world after [omit] has copied object 0, object 2 is object 0
    without its [inlineMap]. *)
Lemma inlineMap_makes_no_difference_witness :
  (callback demo_ext 0 "a.coffee" (omit 0 ["inlineMap"] demo_world).2).1
  = (callback demo_ext 2 "a.coffee" (omit 0 ["inlineMap"] demo_world).2).1
  ∧ made_calls (callback demo_ext 0 "a.coffee") (omit 0 ["inlineMap"] demo_world).2
    = made_calls (callback demo_ext 2 "a.coffee") (omit 0 ["inlineMap"] demo_world).2.
Proof.
  apply (inlineMap_makes_no_difference demo_ext 0 2 "a.coffee"). run.
Defined.

Lemma default_plugin_passes_only_the_filename_witness :
  ∃ plugin handler,
    (Plugin demo_ext None demo_world).1 = Resolved plugin
    ∧ setup plugin [] = [handler]
    ∧ made_calls (onLoad_callback handler "a.coffee") (Plugin demo_ext None demo_world).2
      = [ReadText "a.coffee";
         Compile "square = (x) -> x * x" [("filename", JString "a.coffee")]]
    ∧ (onLoad_callback handler "a.coffee" (Plugin demo_ext None demo_world).2).1
      = Resolved (OnLoadResultSourceCode "// a.coffee: square = (x) -> x * x" "js").
Proof.
  apply (default_plugin_passes_only_the_filename demo_ext "a.coffee" demo_world); run.
Defined.

Lemma matched_paths_are_routed_by_suffix_witness :
  (JsString.ends_with "docs/tutorial.litcoffee" ".cson"
   ∧ ¬ (JsString.ends_with "docs/tutorial.litcoffee" ".coffee"
        ∨ JsString.ends_with "docs/tutorial.litcoffee" ".litcoffee")
   ∧ callback demo_ext 0 "docs/tutorial.litcoffee" = loadCson demo_ext "docs/tutorial.litcoffee")
  ∨ ((JsString.ends_with "docs/tutorial.litcoffee" ".coffee"
      ∨ JsString.ends_with "docs/tutorial.litcoffee" ".litcoffee")
     ∧ ¬ JsString.ends_with "docs/tutorial.litcoffee" ".cson"
     ∧ callback demo_ext 0 "docs/tutorial.litcoffee"
       = loadCoffeeScript demo_ext "docs/tutorial.litcoffee" 0).
Proof.
  apply (matched_paths_are_routed_by_suffix demo_ext 0 "docs/tutorial.litcoffee"). run.
Defined.

Lemma each_path_meets_one_collaborator_witness :
  ((∀ text arg, Compile text arg ∉ made_calls (callback demo_ext 0 "a.cson") demo_world)
   ∧ heap (callback demo_ext 0 "a.cson" demo_world).2 = heap demo_world
   ∧ ∀ options', callback demo_ext options' "a.cson" demo_world
                 = callback demo_ext 0 "a.cson" demo_world)
  ∧ (∀ text, CsonParse text ∉ made_calls (callback demo_ext 0 "a.coffee") demo_world).
Proof.
  destruct (each_path_meets_one_collaborator demo_ext 0 "a.cson" demo_world) as [Hcson _].
  destruct (each_path_meets_one_collaborator demo_ext 0 "a.coffee" demo_world) as [_ Hjs].
  split; [apply Hcson | apply Hjs]; run.
Defined.

Lemma store_growth_of_a_load_witness :
  heap (callback demo_ext 0 "missing.coffee" demo_world).2 = heap demo_world
  ∧ heap (callback demo_ext 0 "bad.coffee" demo_world).2
    = heap demo_world ++ [[("bare", JBoolean true)];
                          [("filename", JString "bad.coffee"); ("bare", JBoolean true)]].
Proof.
  destruct (store_growth_of_a_load demo_ext 0 "missing.coffee" demo_world) as [Hmiss _].
  destruct (store_growth_of_a_load demo_ext 0 "bad.coffee" demo_world) as [_ Hbad].
  split; [apply Hmiss; run | apply (Hbad "if"); run].
Defined.

Lemma result_guards_follow_the_suffix_witness :
  (isObjectResult
     (OnLoadResultObject
        (JObject [("key", JString "value"); ("number", JNumber 123);
                  ("boolean", JBoolean true)]) "object")
   = JsString.endsWith "a.cson" ".cson"
   ∧ isSourceResult
       (OnLoadResultObject
          (JObject [("key", JString "value"); ("number", JNumber 123);
                    ("boolean", JBoolean true)]) "object")
     = negb (JsString.endsWith "a.cson" ".cson"))
  ∧ (isObjectResult (OnLoadResultSourceCode "// a.coffee: square = (x) -> x * x" "js")
     = JsString.endsWith "a.coffee" ".cson"
     ∧ isSourceResult (OnLoadResultSourceCode "// a.coffee: square = (x) -> x * x" "js")
       = negb (JsString.endsWith "a.coffee" ".cson")).
Proof.
  split.
  - apply (result_guards_follow_the_suffix demo_ext 0 "a.cson" demo_world). run.
  - apply (result_guards_follow_the_suffix demo_ext 0 "a.coffee" demo_world). run.
Defined.

Lemma scripts_load_as_in_the_previous_revision_witness :
  RegExp.test filter_pattern "src/utils/helper.coffee" = true
  ∧ ∀ w, callback demo_ext 0 "src/utils/helper.coffee" w
         = Previous.callback demo_ext 0 "src/utils/helper.coffee" w.
Proof.
  apply (scripts_load_as_in_the_previous_revision demo_ext 0 "src/utils/helper.coffee"). run.
Defined.

Lemma loads_keep_the_store_well_formed_witness :
  Forall JsObject.wf
    (heap (run_loads (callback demo_ext 0) ["a.coffee"; "a.cson"; "bad.coffee"] demo_world)).
Proof.
  apply (loads_keep_the_store_well_formed demo_ext 0
           ["a.coffee"; "a.cson"; "bad.coffee"] demo_world).
  decide_by_run.
Defined.
